(** * decoder-ring: a shallow embedding of [src/lib/index.ts]

    The library turns parsed JSON into typed values through composable
    decoders.  Every decoder is an object with one method, [decode], that
    either returns a value or throws.  The embedding keeps that shape:
    a decoder is a record with a [decode] field whose result is either
    [Return x] or [Throw e]. *)

From Stdlib Require Import List String Ascii Bool Arith Lia ZArith DecimalString.
Import ListNotations.
Open Scope string_scope.
Open Scope list_scope.

Set Implicit Arguments.
Set Warnings "-register-all".

(** ** Host objects: string-keyed property lists

    A JavaScript object is kept as the list of its own properties in
    enumeration order; a key occurs at most once in a real object, and a
    lookup returns the first entry.  What an ordinary object inherits from
    [Object.prototype] is added where the code reads, tests or writes a
    property ([prop], [key_in] and [set] below). *)

Definition JSObject (V : Type) : Type := list (string * V).

(** The own property [key] of [o]; [None] when [o] has no such property. *)
Fixpoint get {V : Type} (o : JSObject V) (key : string) : option V :=
  match o with
  | [] => None
  | (k, x) :: rest => if String.eqb k key then Some x else get rest key
  end.

(** [o] has an own property [key]. *)
Definition has {V : Type} (o : JSObject V) (key : string) : bool :=
  match get o key with
  | Some _ => true
  | None => false
  end.

(** [o[key] = x] on an ordinary object: an existing own property keeps its
    place and takes the value; otherwise a new property is added last,
    except for the key [__proto__], whose assignment runs the setter
    inherited from [Object.prototype] and creates no own property.  (That
    setter may replace the prototype of [o]; the prototype of a result is
    not tracked.) *)
Fixpoint set {V : Type} (o : JSObject V) (key : string) (x : V) : JSObject V :=
  match o with
  | [] => if String.eqb key "__proto__" then [] else [(key, x)]
  | (k, y) :: rest =>
      if String.eqb k key then (k, x) :: rest else (k, y) :: set rest key x
  end.

(** The function-valued properties of [Object.prototype] (ECMAScript,
    with Annex B). *)
Definition Object_prototype_methods : list string :=
  ["constructor"; "hasOwnProperty"; "isPrototypeOf"; "propertyIsEnumerable";
   "toLocaleString"; "toString"; "valueOf"; "__defineGetter__";
   "__defineSetter__"; "__lookupGetter__"; "__lookupSetter__"].

Definition is_method (key : string) : bool :=
  existsb (String.eqb key) Object_prototype_methods.

(** The names every ordinary object inherits: the methods and the accessor
    [__proto__]. *)
Definition inherited (key : string) : bool :=
  String.eqb key "__proto__" || is_method key.

(** Modelled from the spec: [objectKeys] is imported from [./unshadow], which
    is not among the sources; it is the key set of a mapping, here in
    enumeration order. *)
Definition objectKeys {V : Type} (o : JSObject V) : list string :=
  map fst o.

(** [Array.prototype.join] on an array of strings. *)
Fixpoint join (sep : string) (parts : list string) : string :=
  match parts with
  | [] => ""
  | [p] => p
  | p :: rest => (p ++ sep ++ join sep rest)%string
  end.

(** ** Exceptions and results *)

(** What a [throw] carries.  [DecodeError] extends [Error] and keeps nothing
    but the message its constructor builds; [HostError] stands for every
    other thrown value (a [TypeError], whatever a caller's mapper throws). *)
Inductive Exception : Type :=
| DecodeError (message : string)
| HostError (what : string).

Inductive Result (T : Type) : Type :=
| Return (x : T)
| Throw (e : Exception).

Arguments Return {T} x.
Arguments Throw {T} e.

Definition bind {A B : Type} (r : Result A) (k : A -> Result B) : Result B :=
  match r with
  | Return x => k x
  | Throw e => Throw e
  end.

Notation "x <- r ;; k" := (bind r (fun x => k))
  (at level 61, r at next level, right associativity).

(** [try { r } catch (e) { handler }]: the handler never looks at [e]. *)
Definition try_catch {T : Type} (r : Result T) (handler : Result T) : Result T :=
  match r with
  | Return x => Return x
  | Throw _ => handler
  end.

(** [xs.reduce(callback, initial)] with a callback that may throw: the first
    throw leaves the loop. *)
Fixpoint reduce {A B : Type} (callback : B -> A -> Result B) (xs : list A)
    (initial : B) : Result B :=
  match xs with
  | [] => Return initial
  | x :: rest => acc <- callback initial x ;; reduce callback rest acc
  end.

(** [xs.map(callback)] with a callback that may throw: elements are visited
    left to right. *)
Fixpoint array_map {A B : Type} (callback : A -> Result B) (xs : list A)
    : Result (list B) :=
  match xs with
  | [] => Return []
  | x :: rest =>
      y <- callback x ;; ys <- array_map callback rest ;; Return (y :: ys)
  end.

(** ** JSON text of strings *)

Definition dquote : ascii := ascii_of_nat 34.
Definition backslash : ascii := ascii_of_nat 92.

Definition hex_digit (n : nat) : ascii :=
  if (n <? 10)%nat then ascii_of_nat (48 + n) else ascii_of_nat (87 + n).

(** One code unit of [QuoteJSONString]. *)
Definition quote_char (c : ascii) : string :=
  let n := nat_of_ascii c in
  if (n =? 8)%nat then "\b"
  else if (n =? 9)%nat then "\t"
  else if (n =? 10)%nat then "\n"
  else if (n =? 12)%nat then "\f"
  else if (n =? 13)%nat then "\r"
  else if (n =? 34)%nat then String.String backslash (String.String dquote "")
  else if (n =? 92)%nat then "\\"
  else if (n <? 32)%nat then
    ("\u00" ++ String.String (hex_digit (n / 16))
                 (String.String (hex_digit (n mod 16)) ""))%string
  else String.String c "".

Fixpoint quote_chars (s : string) : string :=
  match s with
  | EmptyString => ""
  | String.String c rest => (quote_char c ++ quote_chars rest)%string
  end.

Definition QuoteJSONString (s : string) : string :=
  (String.String dquote (quote_chars s) ++ String.String dquote "")%string.

(** The host's numbers are kept abstract; the library only tests their type
    tag and prints them.  [NumberToJSON] is the text [JSON.stringify] gives a
    number. *)
Class Host : Type := {
  number : Type;
  NumberToJSON : number -> string
}.

Section DecoderRing.

Context {host : Host}.

(** ** Values

    What [decode] can be handed: the JSON variants, and what reading a
    property of a JSON object can produce besides them: [undefined] for a
    property that is nowhere, and a method of [Object.prototype]. *)
Inductive Value : Type :=
| JUndefined
| JNull
| JBool (b : bool)
| JNum (n : number)
| JStr (s : string)
| JArr (elements : list Value)
| JObj (fields : JSObject Value)
| JFunction (name : string).

Definition typeof (v : Value) : string :=
  match v with
  | JUndefined => "undefined"
  | JBool _ => "boolean"
  | JNum _ => "number"
  | JStr _ => "string"
  | JNull | JArr _ | JObj _ => "object"
  | JFunction _ => "function"
  end.

(** Modelled from the spec: [isArray] is imported from [./unshadow], which is
    not among the sources; it is the test for the Sequence variant. *)
Definition isArray (v : Value) : bool :=
  match v with
  | JArr _ => true
  | _ => false
  end.

Definition is_null (v : Value) : bool :=
  match v with
  | JNull => true
  | _ => false
  end.

Definition isObject (param : Value) : bool :=
  negb (is_null param) && String.eqb (typeof param) "object"
    && negb (isArray param).

(** What [key] reads as on an ordinary object that has no own property of
    that name.  [__proto__] reads as [Object.prototype] itself, an object
    with no enumerable own property that prints as an empty object: it is
    kept as the empty mapping, from which it differs only in what its own
    [__proto__] reads as (null). *)
Definition inherited_value (key : string) : Value :=
  if String.eqb key "__proto__" then JObj []
  else if is_method key then JFunction key
  else JUndefined.

(** [json[key]] on a value that passed [isObject]: the own property, or
    else what the prototype chain gives. *)
Definition prop (json : Value) (key : string) : Value :=
  match json with
  | JObj fields =>
      match get fields key with
      | Some x => x
      | None => inherited_value key
      end
  | _ => JUndefined
  end.

(** [key in json] on a value that passed [isObject]: own or inherited. *)
Definition key_in (key : string) (json : Value) : bool :=
  match json with
  | JObj fields => has fields key || inherited key
  | _ => false
  end.

(** ** JSON.stringify

    [None] is the [undefined] that [JSON.stringify] returns for a value with
    no JSON text.  Inside an array such an element prints as [null]; inside
    an object the property is left out. *)
Fixpoint JSON_stringify (v : Value) : option string :=
  match v with
  | JUndefined => None
  | JNull => Some "null"
  | JBool b => Some (if b then "true" else "false")
  | JNum n => Some (NumberToJSON n)
  | JStr s => Some (QuoteJSONString s)
  | JArr elements =>
      let element x :=
        match JSON_stringify x with
        | Some text => text
        | None => "null"
        end in
      Some ("[" ++ join "," (map element elements) ++ "]")%string
  | JObj fields =>
      let member (kv : string * Value) :=
        match JSON_stringify (snd kv) with
        | Some text => [(QuoteJSONString (fst kv) ++ ":" ++ text)%string]
        | None => []
        end in
      Some ("{" ++ join "," (flat_map member fields) ++ "}")%string
  | JFunction _ => None
  end.

(** A template literal's [${...}] applied to the result of
    [JSON.stringify]. *)
Definition interpolate (text : option string) : string :=
  match text with
  | Some s => s
  | None => "undefined"
  end.

(** [new DecodeError(expected, actual)]. *)
Definition DecodeError_new (expected : string) (actual : Value) : Exception :=
  DecodeError
    ("Decode error: expected " ++ expected ++ ", got "
       ++ interpolate (JSON_stringify actual))%string.

(** ** Decoders *)

Record Decoder (T : Type) : Type := { decode : Value -> Result T }.

(** Decodes a boolean JSONValue into a boolean. *)
Definition Boolean : Decoder bool :=
  {| decode json :=
       match json with
       | JBool b => Return b
       | _ => Throw (DecodeError_new "boolean" json)
       end |}.

(** Decodes a number JSONValue into a number. *)
Definition Number : Decoder number :=
  {| decode json :=
       match json with
       | JNum n => Return n
       | _ => Throw (DecodeError_new "number" json)
       end |}.

(** Decodes a string JSONValue into a string. *)
Definition String : Decoder string :=
  {| decode json :=
       match json with
       | JStr s => Return s
       | _ => Throw (DecodeError_new "string" json)
       end |}.

(** Decodes an array JSONValue into an array of decoded types. *)
Definition Array {T : Type} (elementDecoder : Decoder T) : Decoder (list T) :=
  {| decode json :=
       match json with
       | JArr elements => array_map (decode elementDecoder) elements
       | _ => Throw (DecodeError_new "array" json)
       end |}.

(** The callback that [Object] hands to [reduce].  Reading
    [decoderMap[key]] for a key that [objectKeys] listed always finds a
    decoder; calling [decode] on a missing one would be a [TypeError]. *)
Definition object_field {T : Type} (decoderMap : JSObject (Decoder T))
    (json : Value) (result : JSObject T) (key : string)
    : Result (JSObject T) :=
  match get decoderMap key with
  | Some fieldDecoder =>
      x <- decode fieldDecoder (prop json key) ;; Return (set result key x)
  | None => Throw (HostError "TypeError")
  end.

(** Decodes an arbitrary object, using the decoder map to determine the value
    at each key.  The fields share one result type [T]; a record with fields
    of several types takes their sum for [T]. *)
Definition Object {T : Type} (decoderMap : JSObject (Decoder T))
    : Decoder (JSObject T) :=
  {| decode json :=
       if isObject json then
         reduce (object_field decoderMap json) (objectKeys decoderMap) []
       else Throw (DecodeError_new "object" json) |}.

(** Maps an arbitrarily-valued, verified type into a different type as a part
    of the decode process.  The mapper is a host function and may throw. *)
Definition Map {T TRaw : Type} (mapper : TRaw -> Result T)
    (decoder : Decoder TRaw) : Decoder T :=
  {| decode json := raw <- decode decoder json ;; mapper raw |}.

(** [objectKeys(json)] for a value that passed [isObject]. *)
Definition keys_of (json : Value) : list string :=
  match json with
  | JObj fields => objectKeys fields
  | _ => []
  end.

(** The callback that [Dictionary] hands to [reduce]. *)
Definition dictionary_entry {T : Type} (decoder : Decoder T) (json : Value)
    (dict : JSObject T) (key : string) : Result (JSObject T) :=
  x <- decode decoder (prop json key) ;; Return (set dict key x).

(** Decodes a dictionary with arbitrary key mappings to consistent values. *)
Definition Dictionary {T : Type} (decoder : Decoder T) : Decoder (JSObject T) :=
  {| decode json :=
       if isObject json then
         reduce (dictionary_entry decoder json) (keys_of json) []
       else Throw (DecodeError_new "object" json) |}.

Definition is_undefined (v : Value) : bool :=
  match v with
  | JUndefined => true
  | _ => false
  end.

(** Decodes a value that may be missing or null; otherwise, attempts to decode
    the value.  The [null] that is returned is [None]. *)
Definition Maybe {T : Type} (decoder : Decoder T) : Decoder (option T) :=
  {| decode json :=
       if is_null json || is_undefined json then Return None
       else x <- decode decoder json ;; Return (Some x) |}.

(** Attempts to decode the given JSON if it is non-null; otherwise, yields the
    provided default value. *)
Definition Default {T : Type} (decoder : Decoder T) (defaultValue : T)
    : Decoder T :=
  {| decode json :=
       match json with
       | JNull => Return defaultValue
       | JUndefined => Return defaultValue
       | _ => decode decoder json
       end |}.

(** The callback that [At] hands to [reduce]; it closes over the whole
    [path] and the original [json] for its error. *)
Definition at_step (path : list string) (json : Value) (current : Value)
    (key : string) : Result Value :=
  if isObject current && key_in key current
  then Return (prop current key)
  else Throw (DecodeError_new ("value at " ++ join "." path)%string json).

(** Decode a value nested inside multiple levels of objects. *)
Definition At {T : Type} (path : list string) (decoder : Decoder T)
    : Decoder T :=
  {| decode json :=
       traverseResult <- reduce (at_step path json) path json ;;
       decode decoder traverseResult |}.

(** Decode a value that may match any one of the given decoders.  The union
    [T1 | T2] is the sum [T1 + T2]. *)
Definition OneOf2 {T1 T2 : Type} (d1 : Decoder T1) (d2 : Decoder T2)
    : Decoder (T1 + T2) :=
  {| decode json :=
       try_catch (x <- decode d1 json ;; Return (inl x))
                 (y <- decode d2 json ;; Return (inr y)) |}.

Definition OneOf3 {T1 T2 T3 : Type} (d1 : Decoder T1) (d2 : Decoder T2)
    (d3 : Decoder T3) : Decoder (T1 + (T2 + T3)) :=
  {| decode json :=
       try_catch (x <- decode d1 json ;; Return (inl x))
                 (y <- decode (OneOf2 d2 d3) json ;; Return (inr y)) |}.

(** ** Reference definitions used to state the properties *)

(** The path walk as the specification describes it: at each step the
    current node must be a Mapping that contains the next key.  [None] means
    that some step does not resolve. *)
Fixpoint spec_walk (path : list string) (node : Value) : option Value :=
  match path with
  | [] => Some node
  | key :: rest =>
      match node with
      | JObj fields =>
          match get fields key with
          | Some child => spec_walk rest child
          | None => None
          end
      | _ => None
      end
  end.

(** The traversal of [At] without its error: every step needs a current
    node that passes [isObject] and for which [key in current] holds, and
    goes on with [current[key]].  [None] means that some step throws. *)
Fixpoint traverse (path : list string) (current : Value) : option Value :=
  match path with
  | [] => Some current
  | key :: rest =>
      if isObject current && key_in key current
      then traverse rest (prop current key)
      else None
  end.

(** The decoders that can be built from the exports of the library.  A mapper
    handed to [Map] is caller code: the [DecodeError] class is not exported,
    so a mapper throws no decode error of its own.  The key [__proto__] is
    left out of declared fields and of paths, so that no decoder reads
    [Object.prototype] itself out of its input. *)
Inductive Library : forall T : Type, Decoder T -> Prop :=
| Lib_Boolean : Library Boolean
| Lib_Number : Library Number
| Lib_String : Library String
| Lib_Array (T : Type) (d : Decoder T) :
    Library d -> Library (Array d)
| Lib_Object (T : Type) (decoderMap : JSObject (Decoder T)) :
    ~ In "__proto__" (objectKeys decoderMap) ->
    (forall key d, get decoderMap key = Some d -> Library d) ->
    Library (Object decoderMap)
| Lib_Map (T TRaw : Type) (mapper : TRaw -> Result T) (d : Decoder TRaw) :
    (forall raw message, mapper raw <> Throw (DecodeError message)) ->
    Library d -> Library (Map mapper d)
| Lib_Dictionary (T : Type) (d : Decoder T) :
    Library d -> Library (Dictionary d)
| Lib_Maybe (T : Type) (d : Decoder T) :
    Library d -> Library (Maybe d)
| Lib_Default (T : Type) (d : Decoder T) (defaultValue : T) :
    Library d -> Library (Default d defaultValue)
| Lib_At (T : Type) (path : list string) (d : Decoder T) :
    ~ In "__proto__" path -> Library d -> Library (At path d)
| Lib_OneOf2 (T1 T2 : Type) (d1 : Decoder T1) (d2 : Decoder T2) :
    Library d1 -> Library d2 -> Library (OneOf2 d1 d2)
| Lib_OneOf3 (T1 T2 T3 : Type) (d1 : Decoder T1) (d2 : Decoder T2)
    (d3 : Decoder T3) :
    Library d1 -> Library d2 -> Library d3 -> Library (OneOf3 d1 d2 d3).

(** [Raised d v expected actual]: while [d] decodes [v], one of the [throw]
    statements of the library is reached with
    [new DecodeError(expected, actual)].  There is one rule for each [throw]
    (with the test that guards it) and one for each place where a decoder
    runs another one. *)
Inductive Raised : forall T : Type, Decoder T -> Value -> string -> Value -> Prop :=
| Raised_Boolean (v : Value) :
    typeof v <> "boolean" -> Raised Boolean v "boolean" v
| Raised_Number (v : Value) :
    typeof v <> "number" -> Raised Number v "number" v
| Raised_String (v : Value) :
    typeof v <> "string" -> Raised String v "string" v
| Raised_Array (T : Type) (d : Decoder T) (v : Value) :
    isArray v = false -> Raised (Array d) v "array" v
| Raised_Array_element (T : Type) (d : Decoder T) (elements : list Value)
    (x : Value) (expected : string) (actual : Value) :
    In x elements -> Raised d x expected actual ->
    Raised (Array d) (JArr elements) expected actual
| Raised_Object (T : Type) (decoderMap : JSObject (Decoder T)) (v : Value) :
    isObject v = false -> Raised (Object decoderMap) v "object" v
| Raised_Object_field (T : Type) (decoderMap : JSObject (Decoder T))
    (v : Value) (key : string) (d : Decoder T) (expected : string)
    (actual : Value) :
    isObject v = true -> get decoderMap key = Some d ->
    Raised d (prop v key) expected actual ->
    Raised (Object decoderMap) v expected actual
| Raised_Map (T TRaw : Type) (mapper : TRaw -> Result T) (d : Decoder TRaw)
    (v : Value) (expected : string) (actual : Value) :
    Raised d v expected actual -> Raised (Map mapper d) v expected actual
| Raised_Dictionary (T : Type) (d : Decoder T) (v : Value) :
    isObject v = false -> Raised (Dictionary d) v "object" v
| Raised_Dictionary_entry (T : Type) (d : Decoder T) (v : Value)
    (key : string) (expected : string) (actual : Value) :
    isObject v = true -> In key (keys_of v) ->
    Raised d (prop v key) expected actual ->
    Raised (Dictionary d) v expected actual
| Raised_Maybe (T : Type) (d : Decoder T) (v : Value) (expected : string)
    (actual : Value) :
    is_null v || is_undefined v = false ->
    Raised d v expected actual -> Raised (Maybe d) v expected actual
| Raised_Default (T : Type) (d : Decoder T) (defaultValue : T) (v : Value)
    (expected : string) (actual : Value) :
    is_null v || is_undefined v = false ->
    Raised d v expected actual ->
    Raised (Default d defaultValue) v expected actual
| Raised_At (T : Type) (path : list string) (d : Decoder T) (v : Value) :
    traverse path v = None ->
    Raised (At path d) v ("value at " ++ join "." path)%string v
| Raised_At_inner (T : Type) (path : list string) (d : Decoder T)
    (v t : Value) (expected : string) (actual : Value) :
    traverse path v = Some t -> Raised d t expected actual ->
    Raised (At path d) v expected actual
| Raised_OneOf2 (T1 T2 : Type) (d1 : Decoder T1) (d2 : Decoder T2)
    (v : Value) (e1 : Exception) (expected : string) (actual : Value) :
    decode d1 v = Throw e1 -> Raised d2 v expected actual ->
    Raised (OneOf2 d1 d2) v expected actual
| Raised_OneOf3 (T1 T2 T3 : Type) (d1 : Decoder T1) (d2 : Decoder T2)
    (d3 : Decoder T3) (v : Value) (e1 e2 : Exception) (expected : string)
    (actual : Value) :
    decode d1 v = Throw e1 -> decode d2 v = Throw e2 ->
    Raised d3 v expected actual ->
    Raised (OneOf3 d1 d2 d3) v expected actual.

End DecoderRing.

(** ** A concrete host for the examples: integer numbers in decimal *)

Definition Z_to_JSON (z : Z) : string := NilZero.string_of_int (Z.to_int z).

Definition ZHost : Host := {| number := Z; NumberToJSON := Z_to_JSON |}.

(** A number of the concrete host as a value. *)
Definition ZNum (z : Z) : @Value ZHost := @JNum ZHost z.

(** A mapper that always throws something that is not a decode error. *)
Definition failing_mapper (raw : string) : Result bool :=
  Throw (HostError "mapper failed").


(** Regrouping and swapping of the sums that stand for union types. *)
Definition regroup {A B C : Type} (r : A + (B + C)) : (A + B) + C :=
  match r with
  | inl a => inl (inl a)
  | inr (inl b) => inl (inr b)
  | inr (inr c) => inr c
  end.

Definition swap {A B : Type} (r : A + B) : B + A :=
  match r with
  | inl a => inr a
  | inr b => inl b
  end.

Section Closure.

Context {host : Host}.


End Closure.

(** * Properties *)

Section Properties.

Context {host : Host}.

(** ** The primitive decoders *)

(** C4: each primitive decoder returns a value of its own variant unchanged
    and fails on every other variant with a decode error built from its name
    and the offending value. *)
Theorem primitive_decoders_contract (v : Value) :
  (typeof v = "boolean" ->
     exists b, v = JBool b /\ decode Boolean v = Return b)
  /\ (typeof v <> "boolean" ->
        decode Boolean v = Throw (DecodeError_new "boolean" v))
  /\ (typeof v = "number" ->
        exists n, v = JNum n /\ decode Number v = Return n)
  /\ (typeof v <> "number" ->
        decode Number v = Throw (DecodeError_new "number" v))
  /\ (typeof v = "string" ->
        exists s, v = JStr s /\ decode String v = Return s)
  /\ (typeof v <> "string" ->
        decode String v = Throw (DecodeError_new "string" v)).
Proof.
  destruct v; cbn; repeat split; intros H;
    try discriminate H; try reflexivity;
    solve [ eexists; split; reflexivity | exfalso; apply H; reflexivity ].
Qed.

(** ** Map, Maybe and the empty path *)

Lemma bind_Return_r (T : Type) (r : Result T) :
  (x <- r ;; Return x) = r.
Proof. destruct r; reflexivity. Qed.

(** C7: mapping with the identity function changes nothing: the value of a
    success and the error of a failure are those of the wrapped decoder. *)
Theorem Map_identity (T : Type) (d : Decoder T) (v : Value) :
  decode (Map (fun x => Return x) d) v = decode d v.
Proof. cbn. apply bind_Return_r. Qed.

(** C10: with the empty path no step is taken and the inner decoder receives
    the original value. *)
Theorem At_empty_path (T : Type) (d : Decoder T) (v : Value) :
  decode (At [] d) v = decode d v.
Proof. reflexivity. Qed.

(** C6: [Maybe] answers null and undefined with the no-value marker whatever
    the inner decoder is, and hands every other value to the inner decoder,
    whose success or failure is the result. *)
Theorem Maybe_contract (T : Type) (d : Decoder T) :
  decode (Maybe d) JNull = Return None
  /\ decode (Maybe d) JUndefined = Return None
  /\ (forall v x, v <> JNull -> v <> JUndefined ->
        decode d v = Return x -> decode (Maybe d) v = Return (Some x))
  /\ (forall v e, v <> JNull -> v <> JUndefined ->
        decode d v = Throw e -> decode (Maybe d) v = Throw e).
Proof.
  repeat split; intros v r Hnull Hundef Hd;
    destruct v; try congruence; cbn; rewrite Hd; reflexivity.
Qed.

(** ** Alternation *)

Lemma OneOf2_second (T1 T2 : Type) (d1 : Decoder T1) (d2 : Decoder T2)
    (v : Value) (e : Exception) :
  decode d1 v = Throw e ->
  decode (OneOf2 d1 d2) v = (y <- decode d2 v ;; Return (inr y)).
Proof. intros H. cbn. rewrite H. reflexivity. Qed.

(** C3: the alternatives are tried in the order given; the first success is
    the result whatever the later decoders are; when all fail the error is
    the last decoder's; and [OneOf3] is [d1] followed by [OneOf2 d2 d3]. *)
Theorem OneOf_order (T1 T2 T3 : Type) (d1 : Decoder T1) (d2 : Decoder T2)
    (d3 : Decoder T3) (v : Value) :
  (forall x, decode d1 v = Return x ->
     decode (OneOf2 d1 d2) v = Return (inl x)
     /\ decode (OneOf3 d1 d2 d3) v = Return (inl x))
  /\ (forall e1 y, decode d1 v = Throw e1 -> decode d2 v = Return y ->
        decode (OneOf2 d1 d2) v = Return (inr y)
        /\ decode (OneOf3 d1 d2 d3) v = Return (inr (inl y)))
  /\ (forall e1 e2, decode d1 v = Throw e1 -> decode d2 v = Throw e2 ->
        decode (OneOf2 d1 d2) v = Throw e2)
  /\ (forall e1 e2 z, decode d1 v = Throw e1 -> decode d2 v = Throw e2 ->
        decode d3 v = Return z ->
        decode (OneOf3 d1 d2 d3) v = Return (inr (inr z)))
  /\ (forall e1 e2 e3, decode d1 v = Throw e1 -> decode d2 v = Throw e2 ->
        decode d3 v = Throw e3 ->
        decode (OneOf3 d1 d2 d3) v = Throw e3)
  /\ decode (OneOf3 d1 d2 d3) v =
       match decode d1 v with
       | Return x => Return (inl x)
       | Throw _ => y <- decode (OneOf2 d2 d3) v ;; Return (inr y)
       end.
Proof.
  repeat split; intros; cbn;
    repeat match goal with
           | H : decode _ v = _ |- _ => rewrite H; clear H
           end;
    try reflexivity.
  destruct (decode d1 v); reflexivity.
Qed.

(** C9: [OneOf2] catches whatever the first decoder throws, a decode error
    or not; an exception thrown by a mapper inside the first decoder is
    dropped and the second decoder is tried. *)
Theorem OneOf2_catches_everything (T1 T2 : Type) (d1 : Decoder T1)
    (d2 : Decoder T2) (v : Value) :
  (forall e, decode d1 v = Throw e ->
     decode (OneOf2 d1 d2) v = (y <- decode d2 v ;; Return (inr y)))
  /\ (forall (TRaw : Type) (d : Decoder TRaw) (mapper : TRaw -> Result T1)
         (raw : TRaw) (what : string),
        decode d v = Return raw -> mapper raw = Throw (HostError what) ->
        decode (OneOf2 (Map mapper d) d2) v
        = (y <- decode d2 v ;; Return (inr y))).
Proof.
  split.
  - intros e H. exact (OneOf2_second d1 d2 v H).
  - intros TRaw d mapper raw what Hd Hm.
    apply OneOf2_second with (e := HostError what).
    cbn. rewrite Hd. cbn. exact Hm.
Qed.

(** ** Arrays *)

Lemma array_map_Return (A B : Type) (f : A -> Result B) (xs : list A)
    (ys : list B) :
  array_map f xs = Return ys <-> Forall2 (fun x y => f x = Return y) xs ys.
Proof.
  revert ys. induction xs as [|x xs IH]; intros ys; cbn.
  - split.
    + intros H. injection H as <-. constructor.
    + intros H. inversion H. reflexivity.
  - split.
    + destruct (f x) as [y|e] eqn:Hx; cbn; [|discriminate].
      destruct (array_map f xs) as [ys'|e] eqn:Hxs; cbn; [|discriminate].
      intros H. injection H as <-. constructor; [exact Hx|].
      apply IH. reflexivity.
    + intros H. inversion H as [|x' y' xs' ys' Hx Hrest]; subst.
      rewrite Hx. cbn.
      apply IH in Hrest. rewrite Hrest. reflexivity.
Qed.

Lemma array_map_Throw_inv (A B : Type) (f : A -> Result B) (xs : list A)
    (e : Exception) :
  array_map f xs = Throw e -> exists x, In x xs /\ f x = Throw e.
Proof.
  induction xs as [|x xs IH]; cbn; [discriminate|].
  destruct (f x) as [y|e'] eqn:Hx; cbn.
  - destruct (array_map f xs) as [ys|e'] eqn:Hxs; cbn; [discriminate|].
    intros H. injection H as ->.
    destruct (IH eq_refl) as [x' [Hin Hx']]. exists x'. auto.
  - intros H. injection H as ->. exists x. auto.
Qed.

Lemma array_map_leftmost (A B : Type) (f : A -> Result B)
    (before after : list A) (x : A) (e : Exception) :
  Forall (fun a => exists b, f a = Return b) before ->
  f x = Throw e ->
  array_map f (before ++ x :: after) = Throw e.
Proof.
  intros Hbefore Hx. induction Hbefore as [|a before [b Ha] _ IH]; cbn.
  - rewrite Hx. reflexivity.
  - rewrite Ha. cbn. rewrite IH. reflexivity.
Qed.

(** C5: [Array d] succeeds exactly on the sequences all of whose elements
    [d] accepts; the result lists the decoded elements in the order and
    number of the input; the leftmost failing element gives the error of the
    whole call; and a value that is not a sequence is refused with a decode
    error for "array" carrying that value. *)
Theorem Array_contract (T : Type) (d : Decoder T) (v : Value) :
  ((exists ys, decode (Array d) v = Return ys)
     <-> (exists xs, v = JArr xs
            /\ forall x, In x xs -> exists y, decode d x = Return y))
  /\ (forall xs ys, v = JArr xs -> decode (Array d) v = Return ys ->
        List.length ys = List.length xs
        /\ forall i x, nth_error xs i = Some x ->
             exists y, nth_error ys i = Some y /\ decode d x = Return y)
  /\ (forall before x after e, v = JArr (before ++ x :: after) ->
        (forall a, In a before -> exists b, decode d a = Return b) ->
        decode d x = Throw e ->
        decode (Array d) v = Throw e)
  /\ (isArray v = false ->
        decode (Array d) v = Throw (DecodeError_new "array" v)).
Proof.
  repeat split.
  - intros [ys Hys]. destruct v; cbn in Hys; try discriminate.
    exists elements. split; [reflexivity|].
    apply array_map_Return in Hys.
    intros x Hin. induction Hys as [|a b xs ys' Hab _ IH]; [contradiction|].
    destruct Hin as [<-|Hin]; [exists b; exact Hab | exact (IH Hin)].
  - intros [xs [-> Hall]]. cbn.
    induction xs as [|x xs IH]; cbn.
    + exists []. reflexivity.
    + destruct (Hall x (or_introl eq_refl)) as [y Hy]. rewrite Hy. cbn.
      destruct IH as [ys Hys]; [intros a Ha; apply Hall; right; exact Ha|].
      rewrite Hys. cbn. exists (y :: ys). reflexivity.
  - subst v. cbn in H0. apply array_map_Return in H0.
    symmetry. exact (Forall2_length H0).
  - subst v. cbn in H0. apply array_map_Return in H0.
    intros i. revert i. induction H0 as [|a b xs' ys' Hab _ IH]; intros i x Hi.
    + destruct i; discriminate Hi.
    + destruct i as [|i]; cbn in *.
      * injection Hi as <-. exists b. auto.
      * exact (IH i x Hi).
  - intros before x after e -> Hbefore Hx. cbn.
    apply array_map_leftmost; [|exact Hx].
    apply Forall_forall. exact Hbefore.
  - intros Hv. destruct v; cbn in *; try reflexivity. discriminate Hv.
Qed.

(** ** Nested access *)

Lemma reduce_app (A B : Type) (f : B -> A -> Result B) (xs ys : list A)
    (initial : B) :
  reduce f (xs ++ ys) initial
  = (acc <- reduce f xs initial ;; reduce f ys acc).
Proof.
  revert initial. induction xs as [|x xs IH]; intros initial; cbn.
  - reflexivity.
  - destruct (f initial x) as [acc|e]; cbn; [apply IH | reflexivity].
Qed.

Lemma reduce_ext (A B : Type) (f g : B -> A -> Result B) (xs : list A)
    (initial : B) :
  (forall acc x, In x xs -> f acc x = g acc x) ->
  reduce f xs initial = reduce g xs initial.
Proof.
  revert initial. induction xs as [|x xs IH]; intros initial Hfg; cbn.
  - reflexivity.
  - rewrite (Hfg initial x (or_introl eq_refl)).
    destruct (g initial x) as [acc|e]; cbn; [|reflexivity].
    apply IH. intros acc' x' Hin. apply Hfg. right. exact Hin.
Qed.

Lemma reduce_Throw_inv (A B : Type) (f : B -> A -> Result B) (xs : list A)
    (initial : B) (e : Exception) :
  reduce f xs initial = Throw e ->
  exists acc x, In x xs /\ f acc x = Throw e.
Proof.
  revert initial. induction xs as [|x xs IH]; intros initial; cbn.
  - discriminate.
  - destruct (f initial x) as [acc|e'] eqn:Hx; cbn.
    + intros H. destruct (IH acc H) as [acc' [x' [Hin Hx']]].
      exists acc', x'. auto.
    + intros H. injection H as ->. exists initial, x. auto.
Qed.



(** ** Objects *)

Lemma get_app (V : Type) (a b : JSObject V) (key : string) :
  get (a ++ b) key
  = match get a key with
    | Some x => Some x
    | None => get b key
    end.
Proof.
  induction a as [|[k x] a IH]; cbn; [reflexivity|].
  destruct (String.eqb k key); [reflexivity | exact IH].
Qed.

Lemma get_listed (V : Type) (o : JSObject V) (key : string) :
  In key (objectKeys o) -> exists x, get o key = Some x.
Proof.
  induction o as [|[k x] o IH]; cbn; [contradiction|].
  intros [->|Hin].
  - rewrite String.eqb_refl. exists x. reflexivity.
  - destruct (String.eqb k key); [exists x; reflexivity | exact (IH Hin)].
Qed.

Lemma inherited_value_none (k : string) :
  inherited k = false -> inherited_value k = JUndefined.
Proof.
  unfold inherited, inherited_value. intros H.
  apply orb_false_iff in H. destruct H as [-> ->]. reflexivity.
Qed.

Lemma prop_absent_as_undefined (fields : JSObject Value) (k key : string) :
  inherited k = false ->
  prop (JObj (fields ++ [(k, JUndefined)])) key = prop (JObj fields) key.
Proof.
  intros Hk. cbn. rewrite get_app. destruct (get fields key); [reflexivity|].
  cbn. destruct (String.eqb k key) eqn:Heq; [|reflexivity].
  apply String.eqb_eq in Heq. subst key.
  symmetry. exact (@inherited_value_none k Hk).
Qed.

(** C1, as the code has it: a key that the input neither has nor inherits
    from [Object.prototype] reads as [undefined], not as null.  The object
    decoder gives the same result as on the input extended by the key with
    the value undefined; the field decoder of the absent key receives
    undefined, and its failure is the failure of the whole call; the
    primitives refuse undefined with an error whose text ends in
    "got undefined"; and [Maybe] and [Default] answer undefined as they
    answer null. *)
Theorem Object_absent_key_is_undefined (T : Type)
    (decoderMap : JSObject (Decoder T)) (fields : JSObject Value)
    (k : string) :
  has fields k = false ->
  inherited k = false ->
  decode (Object decoderMap) (JObj fields)
  = decode (Object decoderMap) (JObj (fields ++ [(k, JUndefined)]))
  /\ (forall before d after result e,
        decoderMap = before ++ (k, d) :: after ->
        has before k = false ->
        decode (Object before) (JObj fields) = Return result ->
        decode d JUndefined = Throw e ->
        decode (Object decoderMap) (JObj fields) = Throw e)
  /\ decode Boolean JUndefined
     = Throw (DecodeError "Decode error: expected boolean, got undefined")
  /\ decode Number JUndefined
     = Throw (DecodeError "Decode error: expected number, got undefined")
  /\ decode String JUndefined
     = Throw (DecodeError "Decode error: expected string, got undefined")
  /\ (forall d : Decoder T,
        decode (Maybe d) JUndefined = decode (Maybe d) JNull)
  /\ (forall (d : Decoder T) (defaultValue : T),
        decode (Default d defaultValue) JUndefined
        = decode (Default d defaultValue) JNull).
Proof.
  intros Habsent Hinherited. repeat split.
  - cbn. apply reduce_ext. intros acc key _. unfold object_field.
    rewrite (@prop_absent_as_undefined fields k key Hinherited). reflexivity.
  - intros before d after result e -> Hbefore Hresult Hd.
    cbn in *. unfold objectKeys in *. rewrite map_app. cbn.
    rewrite reduce_app.
    rewrite reduce_ext with (g := object_field before (JObj fields)).
    + rewrite Hresult. cbn. unfold object_field at 1.
      rewrite get_app. unfold has in Hbefore, Habsent.
      destruct (get before k); [discriminate|].
      cbn. rewrite String.eqb_refl.
      destruct (get fields k); [discriminate|].
      rewrite (@inherited_value_none k Hinherited), Hd. reflexivity.
    + intros acc key Hin. unfold object_field. rewrite get_app.
      destruct (get_listed before key Hin) as [x ->]. reflexivity.
Qed.

(** ** The text of decode errors *)

Lemma at_step_traverse (whole : list string) (json : Value)
    (path : list string) (start : Value) :
  reduce (at_step whole json) path start
  = match traverse path start with
    | Some t => Return t
    | None =>
        Throw (DecodeError_new ("value at " ++ join "." whole)%string json)
    end.
Proof.
  revert start. induction path as [|key rest IH]; intros start; cbn.
  - reflexivity.
  - unfold at_step at 1.
    destruct (isObject start && key_in key start); cbn;
      [apply IH | reflexivity].
Qed.

(** C8, as the code has it: every decode error that leaves a decoder built
    from the library was raised by one of its [throw] statements, and its
    text is "Decode error: expected E, got A" for the expectation E and the
    actual value that statement was reached with, A being the JSON text of
    that value when it has one and the word "undefined" when it has none. *)
Theorem DecodeError_message_format (T : Type) (d : Decoder T) :
  Library d ->
  forall (v : Value) (message : string),
    decode d v = Throw (DecodeError message) ->
    exists (expected : string) (actual : Value),
      Raised d v expected actual
      /\ message =
           ("Decode error: expected " ++ expected ++ ", got "
              ++ match JSON_stringify actual with
                 | Some text => text
                 | None => "undefined"
                 end)%string.
Proof.
  intros Hlib.
  induction Hlib as
    [ | | | T d _ IH | T decoderMap _ _ IH | T TRaw mapper d Hmapper _ IH
    | T d _ IH | T d _ IH | T d defaultValue _ IH | T path d _ _ IH
    | T1 T2 d1 d2 _ IH1 _ IH2 | T1 T2 T3 d1 d2 d3 _ IH1 _ IH2 _ IH3 ];
    intros v message Hthrow.
  - destruct v; cbn in Hthrow; try discriminate Hthrow;
      injection Hthrow as <-; eexists; eexists;
      (split; [apply Raised_Boolean; cbn; discriminate | reflexivity]).
  - destruct v; cbn in Hthrow; try discriminate Hthrow;
      injection Hthrow as <-; eexists; eexists;
      (split; [apply Raised_Number; cbn; discriminate | reflexivity]).
  - destruct v; cbn in Hthrow; try discriminate Hthrow;
      injection Hthrow as <-; eexists; eexists;
      (split; [apply Raised_String; cbn; discriminate | reflexivity]).
  - destruct v; cbn in Hthrow;
      try (injection Hthrow as <-; eexists; eexists;
           (split; [apply Raised_Array; reflexivity | reflexivity])).
    apply array_map_Throw_inv in Hthrow. destruct Hthrow as [x [Hin Hx]].
    destruct (IH x message Hx) as [expected [actual [Hraised ->]]].
    exists expected, actual. split; [|reflexivity].
    eapply Raised_Array_element; eassumption.
  - cbn in Hthrow. destruct (isObject v) eqn:Hobject.
    + apply reduce_Throw_inv in Hthrow.
      destruct Hthrow as [acc [key [Hin Hstep]]]. unfold object_field in Hstep.
      destruct (get decoderMap key) as [fieldDecoder|] eqn:Hget;
        [|discriminate].
      destruct (decode fieldDecoder (prop v key)) as [x|e] eqn:Hfield;
        cbn in Hstep; [discriminate|].
      injection Hstep as ->.
      destruct (IH key fieldDecoder Hget _ _ Hfield)
        as [expected [actual [Hraised ->]]].
      exists expected, actual. split; [|reflexivity].
      eapply Raised_Object_field; eassumption.
    + injection Hthrow as <-. eexists. eexists.
      split; [apply Raised_Object; exact Hobject | reflexivity].
  - cbn in Hthrow. destruct (decode d v) as [raw|e] eqn:Hd; cbn in Hthrow.
    + exfalso. exact (Hmapper raw message Hthrow).
    + injection Hthrow as ->.
      destruct (IH v message Hd) as [expected [actual [Hraised ->]]].
      exists expected, actual. split; [|reflexivity].
      eapply Raised_Map; eassumption.
  - cbn in Hthrow. destruct (isObject v) eqn:Hobject.
    + apply reduce_Throw_inv in Hthrow.
      destruct Hthrow as [acc [key [Hin Hstep]]].
      unfold dictionary_entry in Hstep.
      destruct (decode d (prop v key)) as [x|e] eqn:Hentry;
        cbn in Hstep; [discriminate|].
      injection Hstep as ->.
      destruct (IH _ _ Hentry) as [expected [actual [Hraised ->]]].
      exists expected, actual. split; [|reflexivity].
      eapply Raised_Dictionary_entry; eassumption.
    + injection Hthrow as <-. eexists. eexists.
      split; [apply Raised_Dictionary; exact Hobject | reflexivity].
  - cbn in Hthrow. destruct (is_null v || is_undefined v) eqn:Hnull;
      [discriminate|].
    destruct (decode d v) as [x|e] eqn:Hd; cbn in Hthrow; [discriminate|].
    injection Hthrow as ->.
    destruct (IH v message Hd) as [expected [actual [Hraised ->]]].
    exists expected, actual. split; [|reflexivity].
    eapply Raised_Maybe; eassumption.
  - destruct (is_null v || is_undefined v) eqn:Hnull;
      [destruct v; cbn in Hthrow, Hnull; discriminate|].
    assert (Hd : decode d v = Throw (DecodeError message))
      by (destruct v; cbn in Hthrow, Hnull; try discriminate; exact Hthrow).
    destruct (IH v message Hd) as [expected [actual [Hraised ->]]].
    exists expected, actual. split; [|reflexivity].
    eapply Raised_Default; eassumption.
  - cbn in Hthrow. rewrite at_step_traverse in Hthrow.
    destruct (traverse path v) as [t|] eqn:Hwalk; cbn in Hthrow.
    + destruct (IH t message Hthrow) as [expected [actual [Hraised ->]]].
      exists expected, actual. split; [|reflexivity].
      eapply Raised_At_inner; eassumption.
    + injection Hthrow as <-. eexists. eexists.
      split; [apply Raised_At; exact Hwalk | reflexivity].
  - cbn in Hthrow. destruct (decode d1 v) as [x|e1] eqn:H1; cbn in Hthrow;
      [discriminate|].
    destruct (decode d2 v) as [y|e2] eqn:H2; cbn in Hthrow; [discriminate|].
    injection Hthrow as ->.
    destruct (IH2 v message H2) as [expected [actual [Hraised ->]]].
    exists expected, actual. split; [|reflexivity].
    eapply Raised_OneOf2; eassumption.
  - cbn in Hthrow. destruct (decode d1 v) as [x|e1] eqn:H1; cbn in Hthrow;
      [discriminate|].
    destruct (decode d2 v) as [y|e2] eqn:H2; cbn in Hthrow; [discriminate|].
    destruct (decode d3 v) as [z|e3] eqn:H3; cbn in Hthrow; [discriminate|].
    injection Hthrow as ->.
    destruct (IH3 v message H3) as [expected [actual [Hraised ->]]].
    exists expected, actual. split; [|reflexivity].
    eapply Raised_OneOf3; eassumption.
Qed.

End Properties.

(** * Further properties of the combinators *)

Section Combinators.

Context {host : Host}.

(** ** Mappings *)

(** X1: [isObject] holds exactly for mappings: null and arrays, whose type tag
    is "object" too, are not objects, and [Object] and [Dictionary] refuse
    every value that is not a mapping with the error for "object". *)
Theorem isObject_only_mappings (v : Value) :
  (isObject v = true <-> exists fields, v = JObj fields)
  /\ ((forall fields, v <> JObj fields) ->
      forall (T : Type) (decoderMap : JSObject (Decoder T)) (d : Decoder T),
        decode (Object decoderMap) v = Throw (DecodeError_new "object" v)
        /\ decode (Dictionary d) v = Throw (DecodeError_new "object" v)).
Proof.
  split.
  - destruct v; cbn; split; intros H; try discriminate H;
      try (destruct H as [fields H]; discriminate H).
    + exists fields. reflexivity.
    + reflexivity.
  - intros Hv T decoderMap d.
    destruct v; cbn; try (split; reflexivity).
    exfalso. exact (Hv fields eq_refl).
Qed.

Lemma get_absent (V : Type) (o : JSObject V) (key : string) :
  ~ In key (objectKeys o) -> get o key = None.
Proof.
  induction o as [|[k x] o IH]; cbn; [reflexivity|].
  intros Hnot. destruct (String.eqb k key) eqn:Hk.
  - apply String.eqb_eq in Hk. exfalso. apply Hnot. left. exact Hk.
  - apply IH. intros Hin. apply Hnot. right. exact Hin.
Qed.

Lemma set_absent (V : Type) (o : JSObject V) (key : string) (x : V) :
  key <> "__proto__" ->
  ~ In key (objectKeys o) -> set o key x = o ++ [(key, x)].
Proof.
  intros Hproto. apply String.eqb_neq in Hproto.
  induction o as [|[k y] o IH]; cbn; [rewrite Hproto; reflexivity|].
  intros Hnot. destruct (String.eqb k key) eqn:Hk.
  - apply String.eqb_eq in Hk. exfalso. apply Hnot. left. exact Hk.
  - rewrite IH; [reflexivity|]. intros Hin. apply Hnot. right. exact Hin.
Qed.


Lemma get_present (V : Type) (o : JSObject V) (key : string) (x : V) :
  NoDup (objectKeys o) -> In (key, x) o -> get o key = Some x.
Proof.
  induction o as [|[k y] o IH]; cbn; [contradiction|].
  intros Hnodup [Heq|Hin].
  - injection Heq as -> ->. rewrite String.eqb_refl. reflexivity.
  - inversion Hnodup as [|k' ks Hfresh Hrest]; subst.
    destruct (String.eqb k key) eqn:Hk.
    + apply String.eqb_eq in Hk. subst k. exfalso. apply Hfresh.
      change key with (fst (key, x)). apply in_map. exact Hin.
    + exact (IH Hrest Hin).
Qed.

Lemma array_map_ext_in (A B : Type) (f g : A -> Result B) (xs : list A) :
  (forall x, In x xs -> f x = g x) -> array_map f xs = array_map g xs.
Proof.
  induction xs as [|x xs IH]; intros Hfg; cbn; [reflexivity|].
  rewrite (Hfg x (or_introl eq_refl)).
  rewrite IH; [reflexivity|]. intros a Ha. apply Hfg. right. exact Ha.
Qed.

Lemma array_map_map (A B C : Type) (g : A -> B) (f : B -> Result C)
    (xs : list A) :
  array_map f (map g xs) = array_map (fun x => f (g x)) xs.
Proof.
  induction xs as [|x xs IH]; cbn; [reflexivity|]. rewrite IH. reflexivity.
Qed.

(** One declared field decoded on its own: the callback of [Object] without
    the accumulator. *)
Lemma object_reduce (T : Type) (decoderMap : JSObject (Decoder T))
    (json : Value) (todo done : JSObject (Decoder T)) (acc : JSObject T) :
  decoderMap = done ++ todo ->
  NoDup (objectKeys decoderMap) ->
  ~ In "__proto__" (objectKeys decoderMap) ->
  objectKeys acc = objectKeys done ->
  reduce (object_field decoderMap json) (objectKeys todo) acc
  = (rs <- array_map
             (fun kd =>
                x <- decode (snd kd) (prop json (fst kd)) ;;
                Return (fst kd, x))
             todo ;;
     Return (acc ++ rs)).
Proof.
  unfold objectKeys. revert done acc. induction todo as [|[k d] todo IH];
    intros done acc Hmap Hnodup Hproto Hkeys; cbn.
  - rewrite app_nil_r. reflexivity.
  - assert (Hk : k <> "__proto__").
    { intros ->. apply Hproto. subst decoderMap. unfold objectKeys.
      rewrite map_app. apply in_or_app. right. left. reflexivity. }
    assert (Hfresh : ~ In k (objectKeys done)).
    { subst decoderMap. unfold objectKeys in *. rewrite map_app in Hnodup.
      cbn in Hnodup. apply NoDup_remove_2 in Hnodup.
      intros Hin. apply Hnodup. apply in_or_app. left. exact Hin. }
    unfold object_field at 1.
    assert (Hget : get decoderMap k = Some d).
    { subst decoderMap. rewrite get_app, (get_absent _ _ Hfresh). cbn.
      rewrite String.eqb_refl. reflexivity. }
    rewrite Hget.
    destruct (decode d (prop json k)) as [x|e]; cbn; [|reflexivity].
    rewrite set_absent
      by (try exact Hk; unfold objectKeys; rewrite Hkeys; exact Hfresh).
    rewrite (IH (done ++ [(k, d)]) (acc ++ [(k, x)])).
    + destruct (array_map _ todo) as [rs|e]; cbn; [|reflexivity].
      rewrite <- app_assoc. reflexivity.
    + rewrite <- app_assoc. exact Hmap.
    + exact Hnodup.
    + exact Hproto.
    + rewrite !map_app. cbn. f_equal. exact Hkeys.
Qed.

Lemma Object_entrywise (T : Type) (decoderMap : JSObject (Decoder T))
    (fields : JSObject Value) :
  NoDup (objectKeys decoderMap) ->
  ~ In "__proto__" (objectKeys decoderMap) ->
  decode (Object decoderMap) (JObj fields)
  = array_map
      (fun kd =>
         x <- decode (snd kd) (prop (JObj fields) (fst kd)) ;;
         Return (fst kd, x))
      decoderMap.
Proof.
  intros Hnodup Hproto. cbn.
  rewrite (@object_reduce T decoderMap (JObj fields) decoderMap [] []
             eq_refl Hnodup Hproto eq_refl).
  destruct (array_map _ decoderMap); reflexivity.
Qed.

(** X2: when no declared key is [__proto__], [Object] succeeds exactly when
    every declared field's decoder accepts what [json[key]] reads as (the
    own value, else what [Object.prototype] gives, else undefined); the
    result then has the declared keys, in declaration order, each with its
    decoded value. *)
Theorem Object_success_iff (T : Type) (decoderMap : JSObject (Decoder T))
    (fields : JSObject Value) (result : JSObject T) :
  NoDup (objectKeys decoderMap) ->
  ~ In "__proto__" (objectKeys decoderMap) ->
  (decode (Object decoderMap) (JObj fields) = Return result
   <-> Forall2
         (fun kd kr =>
            fst kr = fst kd
            /\ decode (snd kd) (prop (JObj fields) (fst kd))
               = Return (snd kr))
         decoderMap result).
Proof.
  intros Hnodup Hproto. rewrite (Object_entrywise _ fields Hnodup Hproto).
  split; intros H;
    [apply array_map_Return in H | apply array_map_Return];
    revert H; apply Forall2_impl; intros [k d] [k' x]; cbn [fst snd].
  - destruct (decode d _) as [y|e]; cbn; intros H; [|discriminate H].
    injection H as <- <-. auto.
  - intros [-> ->]. reflexivity.
Qed.


(** X4: [Object] looks at the input only through the declared keys: two
    mappings that agree on them give the same result, so undeclared keys
    and the order of the input's keys do not matter. *)
Theorem Object_reads_declared_keys (T : Type)
    (decoderMap : JSObject (Decoder T)) (fields1 fields2 : JSObject Value) :
  (forall key, In key (objectKeys decoderMap) ->
     get fields1 key = get fields2 key) ->
  decode (Object decoderMap) (JObj fields1)
  = decode (Object decoderMap) (JObj fields2).
Proof.
  intros Hagree. cbn. apply reduce_ext. intros acc key Hin.
  unfold object_field, prop. rewrite (Hagree key Hin). reflexivity.
Qed.

(** X5: Reading the result of [Object] when no declared key is [__proto__]:
    a declared key holds what its decoder returned, and a key that was not
    declared is absent from the result. *)
Theorem Object_result_lookup (T : Type) (decoderMap : JSObject (Decoder T))
    (fields : JSObject Value) (result : JSObject T) (k : string) :
  NoDup (objectKeys decoderMap) ->
  ~ In "__proto__" (objectKeys decoderMap) ->
  decode (Object decoderMap) (JObj fields) = Return result ->
  match get decoderMap k with
  | Some d =>
      exists x, get result k = Some x
                /\ decode d (prop (JObj fields) k) = Return x
  | None => get result k = None
  end.
Proof.
  intros Hnodup Hproto Hresult.
  rewrite (Object_entrywise _ fields Hnodup Hproto) in Hresult.
  apply array_map_Return in Hresult. clear Hnodup Hproto.
  induction Hresult as [|[k1 d1] [k2 x] dm rs Hentry _ IH]; cbn [get].
  - reflexivity.
  - cbn [fst snd] in Hentry.
    destruct (decode d1 (prop (JObj fields) k1)) as [y|e] eqn:Hd;
      cbn [bind] in Hentry; [|discriminate Hentry].
    injection Hentry as <- <-.
    destruct (String.eqb k1 k) eqn:Hk1.
    + apply String.eqb_eq in Hk1. subst k1. exists y. auto.
    + exact IH.
Qed.

(** ** Dictionaries *)

Lemma get_constant (V W : Type) (o : JSObject V) (w : W) (key : string) :
  In key (objectKeys o) ->
  get (map (fun kv => (fst kv, w)) o) key = Some w.
Proof.
  induction o as [|[k x] o IH]; cbn; [contradiction|].
  intros [->|Hin].
  - rewrite String.eqb_refl. reflexivity.
  - destruct (String.eqb k key); [reflexivity | exact (IH Hin)].
Qed.

Lemma dictionary_object_agree (T : Type) (d : Decoder T)
    (fields : JSObject Value) :
  decode (Dictionary d) (JObj fields)
  = decode (Object (map (fun kv => (fst kv, d)) fields)) (JObj fields).
Proof.
  cbn. unfold objectKeys. rewrite map_map. cbn.
  apply reduce_ext. intros acc key Hin.
  unfold object_field, dictionary_entry.
  rewrite get_constant by exact Hin. reflexivity.
Qed.

(** X6: [Dictionary d] is [Object] with the input's own keys as the declared
    ones, each with the decoder [d]. *)
Theorem Dictionary_as_Object (T : Type) (d : Decoder T)
    (fields : JSObject Value) :
  decode (Dictionary d) (JObj fields)
  = decode (Object (map (fun kv => (fst kv, d)) fields)) (JObj fields).
Proof. exact (dictionary_object_agree d fields). Qed.

Lemma Dictionary_entrywise (T : Type) (d : Decoder T)
    (fields : JSObject Value) :
  NoDup (objectKeys fields) ->
  ~ In "__proto__" (objectKeys fields) ->
  decode (Dictionary d) (JObj fields)
  = array_map (fun kv => x <- decode d (snd kv) ;; Return (fst kv, x)) fields.
Proof.
  intros Hnodup Hproto. rewrite dictionary_object_agree, Object_entrywise.
  - rewrite array_map_map. apply array_map_ext_in.
    intros [k x] Hin. cbn [fst snd prop].
    rewrite (@get_present _ fields k x Hnodup Hin). reflexivity.
  - unfold objectKeys. rewrite map_map. exact Hnodup.
  - unfold objectKeys. rewrite map_map. exact Hproto.
Qed.

(** X7: on an input without a key [__proto__], [Dictionary d] succeeds
    exactly when [d] accepts the value of every key; the result has the keys
    of the input, in the same order, each with its decoded value. *)
Theorem Dictionary_success_iff (T : Type) (d : Decoder T)
    (fields : JSObject Value) (result : JSObject T) :
  NoDup (objectKeys fields) ->
  ~ In "__proto__" (objectKeys fields) ->
  (decode (Dictionary d) (JObj fields) = Return result
   <-> Forall2
         (fun kv kr => fst kr = fst kv /\ decode d (snd kv) = Return (snd kr))
         fields result).
Proof.
  intros Hnodup Hproto. rewrite (@Dictionary_entrywise T d _ Hnodup Hproto).
  split; intros H;
    [apply array_map_Return in H | apply array_map_Return];
    revert H; apply Forall2_impl; intros [k v] [k' x]; cbn.
  - destruct (decode d v) as [y|e]; cbn; intros H; [|discriminate H].
    injection H as <- <-. auto.
  - intros [-> ->]. reflexivity.
Qed.


(** X9: on an input without a key [__proto__], the values of a dictionary
    are decoded as [Array d] decodes the list of them: same successes, same
    error, and the keys are put back in order. *)
Theorem Dictionary_values_as_Array (T : Type) (d : Decoder T)
    (fields : JSObject Value) :
  NoDup (objectKeys fields) ->
  ~ In "__proto__" (objectKeys fields) ->
  decode (Dictionary d) (JObj fields)
  = (ys <- decode (Array d) (JArr (map snd fields)) ;;
     Return (combine (objectKeys fields) ys)).
Proof.
  intros Hnodup Hproto.
  rewrite (@Dictionary_entrywise T d _ Hnodup Hproto). clear Hnodup Hproto.
  cbn [decode Array]. induction fields as [|[k v] fields IH]; cbn.
  - reflexivity.
  - destruct (decode d v) as [x|e]; cbn; [|reflexivity].
    rewrite IH. destruct (array_map (decode d) (map snd fields)); reflexivity.
Qed.

(** ** Default, Maybe and Map *)

(** X10: [Default] answers null and undefined with the default value whatever
    the inner decoder is, and hands every other value to the inner decoder,
    whose success or failure is the result. *)
Theorem Default_contract (T : Type) (d : Decoder T) (defaultValue : T) :
  decode (Default d defaultValue) JNull = Return defaultValue
  /\ decode (Default d defaultValue) JUndefined = Return defaultValue
  /\ (forall v, v <> JNull -> v <> JUndefined ->
        decode (Default d defaultValue) v = decode d v).
Proof.
  repeat split. intros v Hnull Hundef. destruct v; try reflexivity; congruence.
Qed.

(** X12: Two mappers in a row are one mapper: the second runs on the result of
    the first, and whatever throws first ends the call. *)
Theorem Map_compose (T1 T2 T3 : Type) (f : T1 -> Result T2)
    (g : T2 -> Result T3) (d : Decoder T1) (v : Value) :
  decode (Map g (Map f d)) v
  = decode (Map (fun raw => x <- f raw ;; g x) d) v.
Proof. cbn. destruct (decode d v); reflexivity. Qed.

(** ** Arrays *)

(** X13: Decoding a concatenation is decoding both parts, left part first, and
    concatenating the results. *)
Theorem Array_concat (T : Type) (d : Decoder T) (xs ys : list Value) :
  decode (Array d) (JArr (xs ++ ys))
  = (a <- decode (Array d) (JArr xs) ;;
     b <- decode (Array d) (JArr ys) ;;
     Return (a ++ b)).
Proof.
  cbn. induction xs as [|x xs IH]; cbn.
  - destruct (array_map (decode d) ys); reflexivity.
  - destruct (decode d x) as [y|e]; cbn; [|reflexivity].
    rewrite IH. destruct (array_map (decode d) xs) as [a|e]; cbn;
      [|reflexivity].
    destruct (array_map (decode d) ys); reflexivity.
Qed.

(** X14: A mapper that cannot throw may be applied per element or to the decoded
    array as a whole: the results and the errors are the same. *)
Theorem Array_Map_commute (T1 T2 : Type) (f : T1 -> T2) (d : Decoder T1)
    (v : Value) :
  decode (Array (Map (fun x => Return (f x)) d)) v
  = decode (Map (fun xs => Return (map f xs)) (Array d)) v.
Proof.
  destruct v; try reflexivity. cbn.
  induction elements as [|x xs IH]; cbn; [reflexivity|].
  destruct (decode d x) as [y|e]; cbn; [|reflexivity].
  change (array_map
            (fun json => raw <- decode d json ;; Return (f raw)) xs)
    with (decode (Array (Map (fun x => Return (f x)) d)) (JArr xs)).
  cbn in IH. cbn. rewrite IH.
  destruct (array_map (decode d) xs); reflexivity.
Qed.

(** ** Nested access *)

Lemma spec_walk_app (p q : list string) (v : Value) :
  spec_walk (p ++ q) v
  = match spec_walk p v with
    | Some node => spec_walk q node
    | None => None
    end.
Proof.
  revert v. induction p as [|key p IH]; intros v; cbn; [reflexivity|].
  destruct v; try reflexivity.
  destruct (get fields key); [apply IH | reflexivity].
Qed.

Lemma At_traverse (T : Type) (d : Decoder T) (path : list string)
    (v : Value) :
  decode (At path d) v
  = match traverse path v with
    | Some t => decode d t
    | None =>
        Throw (DecodeError_new ("value at " ++ join "." path)%string v)
    end.
Proof.
  cbn. rewrite at_step_traverse. destruct (traverse path v); reflexivity.
Qed.

Lemma spec_walk_traverse (path : list string) (v t : Value) :
  spec_walk path v = Some t -> traverse path v = Some t.
Proof.
  revert v. induction path as [|key rest IH]; intros v; cbn.
  - intros H. exact H.
  - destruct v; try discriminate.
    destruct (get fields key) as [child|] eqn:Hget; [|discriminate].
    intros Hwalk. cbn. unfold has. rewrite Hget. cbn.
    exact (IH child Hwalk).
Qed.

Lemma traverse_app (p q : list string) (v : Value) :
  traverse (p ++ q) v
  = match traverse p v with
    | Some node => traverse q node
    | None => None
    end.
Proof.
  revert v. induction p as [|key p IH]; intros v; cbn [app traverse].
  - reflexivity.
  - destruct (isObject v && key_in key v); [apply IH | reflexivity].
Qed.

Lemma traverse_stuck (before after : list string) (key : string)
    (node stuck : Value) :
  spec_walk before node = Some stuck ->
  isObject stuck = false \/ key_in key stuck = false ->
  traverse (before ++ key :: after) node = None.
Proof.
  intros Hwalk Hstuck. rewrite traverse_app.
  rewrite (spec_walk_traverse _ _ Hwalk). cbn [traverse].
  destruct Hstuck as [H|H]; rewrite H; [|rewrite andb_false_r];
    reflexivity.
Qed.

(** X15: When a path resolves, splitting it into two nested [At] changes
    nothing. *)
Theorem At_nested_resolves (T : Type) (d : Decoder T) (p q : list string)
    (v t : Value) :
  spec_walk (p ++ q) v = Some t ->
  decode (At (p ++ q) d) v = decode d t
  /\ decode (At p (At q d)) v = decode d t.
Proof.
  intros Hwalk. rewrite !At_traverse.
  rewrite (spec_walk_traverse _ _ Hwalk). split; [reflexivity|].
  rewrite spec_walk_app in Hwalk.
  destruct (spec_walk p v) as [node|] eqn:Hp; [|discriminate].
  rewrite (spec_walk_traverse _ _ Hp), At_traverse.
  rewrite (spec_walk_traverse _ _ Hwalk). reflexivity.
Qed.

(** X16: When the first part of a path resolves and the second part meets,
    after steps through own keys, a node that is not an object or a key that
    the node neither has nor inherits, the one [At] reports the whole path
    and the original input, while the nested pair reports only the inner
    path and the node the first part reached. *)
Theorem At_nested_failure (T : Type) (d : Decoder T)
    (p before after : list string) (key : string) (v node stuck : Value) :
  spec_walk p v = Some node ->
  spec_walk before node = Some stuck ->
  isObject stuck = false \/ key_in key stuck = false ->
  decode (At (p ++ before ++ key :: after) d) v
  = Throw (DecodeError_new
             ("value at " ++ join "." (p ++ before ++ key :: after))%string v)
  /\ decode (At p (At (before ++ key :: after) d)) v
     = Throw (DecodeError_new
                ("value at " ++ join "." (before ++ key :: after))%string
                node).
Proof.
  intros Hp Hbefore Hstuck. rewrite !At_traverse, traverse_app.
  rewrite (spec_walk_traverse _ _ Hp).
  rewrite (@traverse_stuck before after key node stuck Hbefore Hstuck).
  split; [reflexivity|].
  rewrite At_traverse, (@traverse_stuck before after key node stuck Hbefore Hstuck).
  reflexivity.
Qed.

(** X17: [Maybe] and [Default] make a field optional under [Object] but not
    under [At]: for a key that the input neither has nor inherits, [Object]
    hands undefined to the field decoder, which answers with the marker or
    the default, while [At] fails before the inner decoder is reached. *)
Theorem absent_key_Object_versus_At (T : Type) (d : Decoder T)
    (defaultValue : T) (fields : JSObject Value) (k : string) :
  has fields k = false ->
  inherited k = false ->
  decode (Object [(k, Maybe d)]) (JObj fields) = Return [(k, None)]
  /\ decode (Object [(k, Default d defaultValue)]) (JObj fields)
     = Return [(k, defaultValue)]
  /\ decode (At [k] (Maybe d)) (JObj fields)
     = Throw (DecodeError_new ("value at " ++ k)%string (JObj fields))
  /\ decode (At [k] (Default d defaultValue)) (JObj fields)
     = Throw (DecodeError_new ("value at " ++ k)%string (JObj fields)).
Proof.
  intros Habsent Hinherited.
  assert (Hk : String.eqb k "__proto__" = false).
  { unfold inherited in Hinherited. apply orb_false_iff in Hinherited.
    exact (proj1 Hinherited). }
  assert (Hprop : prop (JObj fields) k = JUndefined).
  { unfold has in Habsent. cbn. destruct (get fields k); [discriminate|].
    exact (@inherited_value_none _ k Hinherited). }
  assert (Htraverse : traverse [k] (JObj fields) = None).
  { cbn. rewrite Habsent, Hinherited. reflexivity. }
  repeat split.
  - cbn [decode Object]. change (isObject (JObj fields)) with true.
    cbn [objectKeys map fst reduce]. unfold object_field. cbn [get].
    rewrite String.eqb_refl, Hprop. cbn. rewrite Hk. reflexivity.
  - cbn [decode Object]. change (isObject (JObj fields)) with true.
    cbn [objectKeys map fst reduce]. unfold object_field. cbn [get].
    rewrite String.eqb_refl, Hprop. cbn. rewrite Hk. reflexivity.
  - rewrite At_traverse, Htraverse. reflexivity.
  - rewrite At_traverse, Htraverse. reflexivity.
Qed.

(** ** Alternation *)

(** X18: Nesting [OneOf2] on the left is [OneOf3] up to the grouping of the
    union: same order of attempts, same value, same surviving error. *)
Theorem OneOf2_nested_left (T1 T2 T3 : Type) (d1 : Decoder T1)
    (d2 : Decoder T2) (d3 : Decoder T3) (v : Value) :
  decode (OneOf2 (OneOf2 d1 d2) d3) v
  = (r <- decode (OneOf3 d1 d2 d3) v ;; Return (regroup r)).
Proof.
  cbn. destruct (decode d1 v); cbn; [reflexivity|].
  destruct (decode d2 v); cbn; [reflexivity|].
  destruct (decode d3 v); reflexivity.
Qed.

(** X19: When two decoders never both accept a value, the order in which
    [OneOf2] tries them does not change a success. *)
Theorem OneOf2_order_of_exclusive (T1 T2 : Type) (d1 : Decoder T1)
    (d2 : Decoder T2) (v : Value) (r : T1 + T2) :
  ~ ((exists x, decode d1 v = Return x) /\ (exists y, decode d2 v = Return y)) ->
  decode (OneOf2 d1 d2) v = Return r ->
  decode (OneOf2 d2 d1) v = Return (swap r).
Proof.
  intros Hexcl. cbn.
  destruct (decode d1 v) as [x|e1] eqn:H1, (decode d2 v) as [y|e2] eqn:H2;
    cbn; intros H; try discriminate H.
  - exfalso. apply Hexcl. eauto.
  - injection H as <-. reflexivity.
  - injection H as <-. reflexivity.
Qed.

(** X20: No value is accepted by two of the primitive decoders, and null,
    undefined, arrays and mappings are accepted by none. *)
Theorem primitives_exclusive (v : Value) :
  ~ ((exists b, decode Boolean v = Return b)
     /\ (exists n, decode Number v = Return n))
  /\ ~ ((exists b, decode Boolean v = Return b)
        /\ (exists s, decode String v = Return s))
  /\ ~ ((exists n, decode Number v = Return n)
        /\ (exists s, decode String v = Return s))
  /\ (String.eqb (typeof v) "object" || String.eqb (typeof v) "undefined"
      = true ->
      decode Boolean v = Throw (DecodeError_new "boolean" v)
      /\ decode Number v = Throw (DecodeError_new "number" v)
      /\ decode String v = Throw (DecodeError_new "string" v)).
Proof.
  destruct v; cbn; repeat split;
    try (intros [[x1 H1] [x2 H2]];
         first [discriminate H1 | discriminate H2]).
  all: try reflexivity; discriminate.
Qed.

(** ** What is thrown *)


End Combinators.

(** * The properties at concrete inputs *)

#[local] Existing Instance ZHost.

(** C4 at [true], at null and at a number. *)
Lemma primitive_decoders_contract_witness :
  (exists b, JBool true = JBool b /\ decode Boolean (JBool true) = Return b)
  /\ decode Boolean JNull = Throw (DecodeError_new "boolean" JNull)
  /\ decode String (ZNum 7) = Throw (DecodeError_new "string" (ZNum 7)).
Proof.
  split; [|split].
  - apply (proj1 (primitive_decoders_contract (host := ZHost) (JBool true))). reflexivity.
  - apply (proj1 (proj2 (primitive_decoders_contract (host := ZHost) JNull))).
    vm_compute. discriminate.
  - apply (primitive_decoders_contract (host := ZHost) (ZNum 7)). vm_compute. discriminate.
Defined.

(** C6 at the number 5 and at a string that [Number] refuses. *)
Lemma Maybe_contract_witness :
  decode (Maybe Number) (ZNum 5) = Return (Some 5%Z)
  /\ decode (Maybe Number) (JStr "x")
     = Throw (DecodeError_new "number" (JStr "x")).
Proof.
  split.
  - apply (proj1 (proj2 (proj2 (Maybe_contract (host := ZHost) Number))));
      [discriminate | discriminate | reflexivity].
  - apply (proj2 (proj2 (proj2 (Maybe_contract (host := ZHost) Number))));
      [discriminate | discriminate | reflexivity].
Defined.

(** C3 on [true], which [Number] and [String] both refuse and [Boolean]
    accepts. *)
Lemma OneOf_order_witness :
  decode (OneOf2 Number String) (JBool true)
  = Throw (DecodeError_new "string" (JBool true))
  /\ decode (OneOf3 Number String Boolean) (JBool true)
     = Return (inr (inr true)).
Proof.
  pose proof (OneOf_order (host := ZHost) Number String Boolean (JBool true)) as H.
  split.
  - apply (proj1 (proj2 (proj2 H))) with
      (e1 := DecodeError_new "number" (JBool true)); reflexivity.
  - apply (proj1 (proj2 (proj2 (proj2 H)))) with
      (e1 := DecodeError_new "number" (JBool true))
      (e2 := DecodeError_new "string" (JBool true)); reflexivity.
Defined.

(** C9 with a first decoder whose mapper throws after [String] accepted the
    input. *)
Lemma OneOf2_catches_everything_witness :
  decode (OneOf2 (Map failing_mapper String) String) (JStr "s")
  = Return (inr "s").
Proof.
  apply (proj2 (OneOf2_catches_everything (host := ZHost)
                  (Map failing_mapper String) String (JStr "s")))
    with (raw := "s") (what := "mapper failed"); reflexivity.
Defined.

(** C5 on [[1, "x"]]: the second element is the leftmost that fails. *)
Lemma Array_contract_witness :
  decode (Array Number) (JArr [ZNum 1; JStr "x"])
  = Throw (DecodeError_new "number" (JStr "x"))
  /\ decode (Array Number) (JStr "x")
     = Throw (DecodeError_new "array" (JStr "x")).
Proof.
  split.
  - apply (proj1 (proj2 (proj2
             (Array_contract (host := ZHost) Number (JArr [ZNum 1; JStr "x"])))))
      with (before := [ZNum 1]) (x := JStr "x") (after := []).
    + reflexivity.
    + intros a [<-|[]]. exists 1%Z. reflexivity.
    + reflexivity.
  - apply (Array_contract (host := ZHost) Number (JStr "x")). reflexivity.
Defined.


(** C1: on [{a: 1}] the decoder for the absent field [b] receives undefined;
    its error differs from the one for a field [b] that holds null. *)
Lemma Object_absent_key_not_null :
  decode (Object [("b", String)]) (JObj [("a", ZNum 1)])
  <> decode (Object [("b", String)]) (JObj [("a", ZNum 1); ("b", JNull)])
  /\ decode (Object [("b", String)]) (JObj [("a", ZNum 1)])
     <> Throw (DecodeError_new "string" JNull).
Proof.
  vm_compute. split; intros H; discriminate H.
Qed.

(** C1 as amended, on [{a: 1}] with the declared field [b]. *)
Lemma Object_absent_key_is_undefined_witness :
  decode (Object [("b", String)]) (JObj [("a", ZNum 1)])
  = decode (Object [("b", String)])
      (JObj [("a", ZNum 1); ("b", JUndefined)])
  /\ decode (Object [("b", String)]) (JObj [("a", ZNum 1)])
     = Throw (DecodeError "Decode error: expected string, got undefined").
Proof.
  pose proof (@Object_absent_key_is_undefined ZHost string
                [("b", String)] [("a", ZNum 1)] "b" eq_refl eq_refl) as H.
  split.
  - exact (proj1 H).
  - apply (proj1 (proj2 H)) with
      (before := []) (d := String) (after := []) (result := []);
      reflexivity.
Defined.


Lemma Z_to_JSON_not_undefined (z : Z) : Z_to_JSON z <> "undefined".
Proof.
  unfold Z_to_JSON. destruct (Z.to_int z) as [d|d]; cbn.
  - destruct d; cbn; discriminate.
  - discriminate.
Qed.

(** C8: the error for undefined, as [Object] raises it for an absent field,
    has a text that ends in "undefined", which is the JSON text of no value:
    [JSON.stringify] gives undefined no text at all. *)
Lemma DecodeError_text_not_always_JSON :
  decode Number JUndefined
  = Throw (DecodeError "Decode error: expected number, got undefined")
  /\ decode (Object [("b", String)]) (JObj [("a", ZNum 1)])
     = Throw (DecodeError "Decode error: expected string, got undefined")
  /\ JSON_stringify (@JUndefined ZHost) = None
  /\ forall v : @Value ZHost, JSON_stringify v <> Some "undefined".
Proof.
  repeat split. intros v H. destruct v; cbn in H; try discriminate H.
  - destruct b; discriminate H.
  - injection H as H. exact (Z_to_JSON_not_undefined n H).
Qed.

(** C8 on the error of [Array Number] for [[true]]. *)
Lemma DecodeError_message_format_witness :
  exists (expected : string) (actual : Value),
    Raised (Array Number) (JArr [JBool true]) expected actual
    /\ "Decode error: expected number, got true"
       = ("Decode error: expected " ++ expected ++ ", got "
            ++ match JSON_stringify actual with
               | Some text => text
               | None => "undefined"
               end)%string.
Proof.
  apply (@DecodeError_message_format ZHost (list Z) (Array Number)
           (Lib_Array Lib_Number) (JArr [JBool true])).
  reflexivity.
Defined.

(** The texts the specification quotes: [true], a quoted string, and an
    object with one numeric field. *)
Example JSON_text_examples :
  interpolate (JSON_stringify (JBool true)) = "true"
  /\ interpolate (JSON_stringify (JStr "got"))
     = String.String dquote ("got" ++ String.String dquote "")%string
  /\ interpolate (JSON_stringify (JObj [("a", ZNum 1)]))
     = ("{" ++ QuoteJSONString "a" ++ ":1}")%string
  /\ interpolate (JSON_stringify (@JUndefined ZHost)) = "undefined".
Proof. repeat split. Qed.

(** A record with a numeric and a textual field: the field results share the
    sum of the two types. *)
Example Object_two_fields :
  decode (Object [("a", Map (fun n => Return (inl n)) Number);
                  ("b", Map (fun s => Return (inr s)) String)])
         (JObj [("b", JStr "x"); ("a", ZNum 1)])
  = Return [("a", inl 1%Z); ("b", inr "x")].
Proof. reflexivity. Qed.

(** * The further properties at concrete inputs *)

Ltac distinct_keys :=
  repeat constructor; simpl; intuition discriminate.

Ltac no_proto_key := simpl; intuition discriminate.

(** Null and an array are refused as objects. *)
Lemma isObject_only_mappings_witness :
  decode (Object [("a", Number)]) JNull
  = Throw (DecodeError_new "object" JNull)
  /\ decode (Dictionary Number) JNull
     = Throw (DecodeError_new "object" JNull).
Proof.
  apply (proj2 (isObject_only_mappings (host := ZHost) JNull)).
  intros fields H. discriminate H.
Defined.

(** Two numeric fields, given in the other order in the input. *)
Lemma Object_success_iff_witness :
  decode (Object [("a", Number); ("b", Number)])
         (JObj [("b", ZNum 2); ("a", ZNum 1)])
  = Return [("a", 1%Z); ("b", 2%Z)].
Proof.
  apply (proj2 (@Object_success_iff ZHost Z
                  [("a", Number); ("b", Number)]
                  [("b", ZNum 2); ("a", ZNum 1)]
                  [("a", 1%Z); ("b", 2%Z)]
                  ltac:(distinct_keys) ltac:(no_proto_key))).
  repeat constructor.
Defined.


(** An undeclared key and another key order leave the result alone. *)
Lemma Object_reads_declared_keys_witness :
  decode (Object [("a", Number)]) (JObj [("a", ZNum 1)])
  = decode (Object [("a", Number)]) (JObj [("z", JNull); ("a", ZNum 1)]).
Proof.
  apply (@Object_reads_declared_keys ZHost Z [("a", Number)]
           [("a", ZNum 1)] [("z", JNull); ("a", ZNum 1)]).
  intros key [<-|[]]. reflexivity.
Defined.

(** The declared key [a] is in the result, the input's [z] is not. *)
Lemma Object_result_lookup_witness :
  (exists x, get [("a", 1%Z)] "a" = Some x
             /\ decode Number (prop (JObj [("z", JNull); ("a", ZNum 1)]) "a")
                = Return x)
  /\ get [("a", 1%Z)] "z" = None.
Proof.
  split.
  - apply (@Object_result_lookup ZHost Z [("a", Number)]
             [("z", JNull); ("a", ZNum 1)] [("a", 1%Z)] "a");
      [distinct_keys | no_proto_key | reflexivity].
  - apply (@Object_result_lookup ZHost Z [("a", Number)]
             [("z", JNull); ("a", ZNum 1)] [("a", 1%Z)] "z");
      [distinct_keys | no_proto_key | reflexivity].
Defined.

(** A dictionary of two numbers. *)
Lemma Dictionary_success_iff_witness :
  decode (Dictionary Number) (JObj [("x", ZNum 1); ("y", ZNum 2)])
  = Return [("x", 1%Z); ("y", 2%Z)].
Proof.
  apply (proj2 (@Dictionary_success_iff ZHost Z Number
                  [("x", ZNum 1); ("y", ZNum 2)]
                  [("x", 1%Z); ("y", 2%Z)]
                  ltac:(distinct_keys) ltac:(no_proto_key))).
  repeat constructor.
Defined.


(** The same dictionary through the array of its values. *)
Lemma Dictionary_values_as_Array_witness :
  decode (Dictionary Number) (JObj [("x", ZNum 1); ("y", ZNum 2)])
  = (ys <- decode (Array Number) (JArr [ZNum 1; ZNum 2]) ;;
     Return (combine ["x"; "y"] ys)).
Proof.
  apply (@Dictionary_values_as_Array ZHost Z Number
           [("x", ZNum 1); ("y", ZNum 2)]);
    [distinct_keys | no_proto_key].
Defined.

(** [Default] on a number and on a value that [Number] refuses. *)
Lemma Default_contract_witness :
  decode (Default Number 0%Z) (ZNum 7) = decode Number (ZNum 7)
  /\ decode (Default Number 0%Z) (JStr "x") = decode Number (JStr "x").
Proof.
  split.
  - apply (proj2 (proj2 (@Default_contract ZHost Z Number 0%Z)));
      intros H; discriminate H.
  - apply (proj2 (proj2 (@Default_contract ZHost Z Number 0%Z)));
      intros H; discriminate H.
Defined.

(** The path a.b split after its first key. *)
Lemma At_nested_resolves_witness :
  decode (At ["a"; "b"] Number) (JObj [("a", JObj [("b", ZNum 5)])])
  = decode Number (ZNum 5)
  /\ decode (At ["a"] (At ["b"] Number)) (JObj [("a", JObj [("b", ZNum 5)])])
     = decode Number (ZNum 5).
Proof.
  apply (@At_nested_resolves ZHost Z Number ["a"] ["b"]
           (JObj [("a", JObj [("b", ZNum 5)])]) (ZNum 5)).
  reflexivity.
Defined.

(** The same split on an input whose inner object lacks [b]. *)
Lemma At_nested_failure_witness :
  decode (At ["a"; "b"] Number) (JObj [("a", JObj [])])
  = Throw (DecodeError_new "value at a.b" (JObj [("a", JObj [])]))
  /\ decode (At ["a"] (At ["b"] Number)) (JObj [("a", JObj [])])
     = Throw (DecodeError_new "value at b" (JObj [])).
Proof.
  apply (@At_nested_failure ZHost Z Number ["a"] [] [] "b"
           (JObj [("a", JObj [])]) (JObj []) (JObj []));
    [reflexivity | reflexivity | right; reflexivity].
Defined.

(** An optional field [b] that the input does not have. *)
Lemma absent_key_Object_versus_At_witness :
  decode (Object [("b", Maybe Number)]) (JObj [("a", ZNum 1)])
  = Return [("b", None)]
  /\ decode (At ["b"] (Maybe Number)) (JObj [("a", ZNum 1)])
     = Throw (DecodeError_new "value at b" (JObj [("a", ZNum 1)])).
Proof.
  pose proof (@absent_key_Object_versus_At ZHost Z Number 0%Z
                [("a", ZNum 1)] "b" eq_refl eq_refl) as H.
  split; [exact (proj1 H) | exact (proj1 (proj2 (proj2 H)))].
Defined.

(** A string is accepted by [String] only, whichever comes first. *)
Lemma OneOf2_order_of_exclusive_witness :
  decode (OneOf2 String Number) (JStr "x") = Return (inl "x").
Proof.
  apply (@OneOf2_order_of_exclusive ZHost Z string Number String
           (JStr "x") (inr "x")).
  - intros [[n Hn] _]. discriminate Hn.
  - reflexivity.
Defined.

(** Null is refused by the three primitives. *)
Lemma primitives_exclusive_witness :
  decode Boolean JNull = Throw (DecodeError_new "boolean" JNull)
  /\ decode Number JNull = Throw (DecodeError_new "number" JNull)
  /\ decode String JNull = Throw (DecodeError_new "string" JNull).
Proof.
  apply (proj2 (proj2 (proj2 (primitives_exclusive (host := ZHost) JNull)))).
  reflexivity.
Defined.


(** An own key [__proto__] of the input, as [JSON.parse] creates it, is
    lost: the assignment in [Dictionary] runs the inherited setter. *)
Example Dictionary_own_proto_key :
  decode (Dictionary Number) (JObj [("__proto__", ZNum 1); ("a", ZNum 2)])
  = Return [("a", 2%Z)].
Proof. reflexivity. Qed.
